(** * update_styles.py: replacing the inline style block by a stylesheet link

    A shallow embedding of [update_styles.py].  The script reads the text of
    one HTML file, looks up the first ["<style>"] and the first ["</style>"]
    with [str.find], and, when both are present, overwrites the file with
    the text before the first marker, a fixed [<link>] tag and the text
    after the second marker.

    Python text is modelled as a list of Unicode code points, indices as
    [Z] (so that the [-1] sentinel of [str.find] and the clamping of slice
    bounds are written out), and the script's effects (the file's text, the
    writes and the console lines) by a small state monad over a [world].
    In [world] the file is the text that [f.read()] returns and that
    [f.write()] receives.  The newline translation that the text-mode
    [open] of the script applies between that text and the file on disk is
    modelled on top of it, in [Disk]; the UTF-8 codec, which is one-to-one
    on the text it accepts, is not. *)

From Stdlib Require Import String Ascii.
From Stdlib Require Import List ZArith NArith Lia Bool.
Import ListNotations.

Local Open Scope Z_scope.

(** ** Python strings *)

Module PyStr.

(** A character is a Unicode code point. *)
Definition char := N.

Definition str := list char.

(** A string literal of the source, as code points. *)
Definition lit (s : string) : str := map N_of_ascii (list_ascii_of_string s).

(** [len(s)] *)
Definition len (s : str) : Z := Z.of_nat (length s).

(** [s.startswith(sub)] *)
Fixpoint startswith (s sub : str) {struct sub} : bool :=
  match sub with
  | [] => true
  | c :: sub' =>
      match s with
      | [] => false
      | d :: s' => N.eqb d c && startswith s' sub'
      end
  end.

(** The scan behind [str.find]: [i] is the index, in the whole text, of the
    first character of [s]. *)
Fixpoint find_from (s sub : str) (i : Z) : Z :=
  if startswith s sub then i
  else match s with
       | [] => -1
       | _ :: s' => find_from s' sub (i + 1)
       end.

(** [s.find(sub)]: the lowest index at which [sub] occurs in [s], [-1] when
    there is none. *)
Definition find (s sub : str) : Z := find_from s sub 0.

(** A slice bound as Python adjusts it: a negative bound counts from the
    end, and the result is clamped to [0 .. len]. *)
Definition adjust_index (n i : Z) : Z :=
  if i <? 0 then Z.max 0 (i + n) else Z.min i n.

(** [s[:stop]] *)
Definition slice_to (s : str) (stop : Z) : str :=
  firstn (Z.to_nat (adjust_index (len s) stop)) s.

(** [s[start:]] *)
Definition slice_from (s : str) (start : Z) : str :=
  skipn (Z.to_nat (adjust_index (len s) start)) s.

(** *** Occurrences, stated without [find] *)

(** [sub] occurs in [s] at index [k]. *)
Definition occurs_at (sub s : str) (k : nat) : Prop :=
  exists pre post, s = pre ++ sub ++ post /\ length pre = k.

(** [sub] is a substring of [s]. *)
Definition occurs (sub s : str) : Prop := exists k, occurs_at sub s k.

(** The first occurrence of [sub] in [s] is at index [k]. *)
Definition first_at (sub s : str) (k : nat) : Prop :=
  occurs_at sub s k /\ forall j, occurs_at sub s j -> (k <= j)%nat.

(** Executable form of [occurs_at]: the indices at which [sub] occurs in
    [s], in increasing order, [k] being the index of the first character
    of [s]. *)
Fixpoint positions_from (s sub : str) (k : nat) : list nat :=
  (if startswith s sub then [k] else []) ++
  match s with
  | [] => []
  | _ :: s' => positions_from s' sub (S k)
  end.

Definition positions (s sub : str) : list nat := positions_from s sub 0.

(** [c] is the first character of [t] and occurs nowhere else in it. *)
Definition head_only (c : char) (t : str) : Prop :=
  nth_error t 0 = Some c /\ forall m, (0 < m)%nat -> nth_error t m <> Some c.

(** Executable form of [head_only]. *)
Definition head_onlyb (c : char) (t : str) : bool :=
  match t with
  | [] => false
  | d :: t' => N.eqb d c && forallb (fun x => negb (N.eqb x c)) t'
  end.

End PyStr.

(** ** The script *)

Module UpdateStyles.
Import PyStr.

(** What the script does to the outside. *)
Inductive event : Type :=
| Wrote (text : str)      (* [f.write(text)] on the file opened with ['w'] *)
| Printed (line : str).   (* [print(line)] *)

(** The file at [file_path], as text, and the effects so far, oldest
    first. *)
Record world : Type := mkWorld {
  file_text : str;
  events : list event
}.

(** The script's computations: a state monad over the world. *)
Definition M (A : Type) : Type := world -> A * world.

Definition ret {A : Type} (a : A) : M A := fun w => (a, w).

Definition bind {A B : Type} (m : M A) (f : A -> M B) : M B :=
  fun w => let (a, w') := m w in f a w'.

Notation "x <- m ;; k" := (bind m (fun x => k))
  (at level 61, m at next level, right associativity).
Notation "m ;;; k" := (bind m (fun _ => k))
  (at level 61, right associativity).

(** [with open(file_path, 'r', encoding='utf-8') as f: content = f.read()] *)
Definition read_file : M str := fun w => (file_text w, w).

(** [with open(file_path, 'w', encoding='utf-8') as f: f.write(text)]:
    the file is truncated and holds [text] afterwards. *)
Definition write_file (text : str) : M unit :=
  fun w => (tt, mkWorld text (events w ++ [Wrote text])).

(** [print(line)] *)
Definition print (line : str) : M unit :=
  fun w => (tt, mkWorld (file_text w) (events w ++ [Printed line])).

Definition file_path : string :=
  "c:\Users\Elite\Documents\My Made Games\Civil Zones Beta 0\CitGame Early version 2\Civil Zones\index.html".

Definition start_tag : str := lit "<style>".
Definition end_tag : str := lit "</style>".

Definition dquote : char := 34%N.

(** ['<link rel="stylesheet" href="css/styles.css">'] *)
Definition link_tag : str :=
  lit "<link rel=" ++ [dquote] ++ lit "stylesheet" ++ [dquote] ++
  lit " href=" ++ [dquote] ++ lit "css/styles.css" ++ [dquote] ++ lit ">".

Definition msg_success : str := lit "Successfully replaced style block with link.".
Definition msg_not_found : str := lit "Could not find style block.".

Definition start_index (content : str) : Z := find content start_tag.
Definition end_index (content : str) : Z := find content end_tag.

(** The condition of the [if]. *)
Definition found (content : str) : bool :=
  negb (start_index content =? -1) && negb (end_index content =? -1).

Definition new_content (content : str) : str :=
  slice_to content (start_index content) ++ link_tag ++
  slice_from content (end_index content + len end_tag).

(** The whole script. *)
Definition main : M unit :=
  content <- read_file ;;
  if found content then
    write_file (new_content content) ;;;
    print msg_success
  else
    print msg_not_found.

(** One run of the script on a file that holds [content]. *)
Definition run (w : world) : world := snd (main w).

Definition initial (content : str) : world := mkWorld content [].

(** The texts written, and the lines printed, in a list of events. *)
Definition writes (es : list event) : list str :=
  flat_map (fun e => match e with Wrote t => [t] | Printed _ => [] end) es.

Definition prints (es : list event) : list str :=
  flat_map (fun e => match e with Printed l => [l] | Wrote _ => [] end) es.

End UpdateStyles.

(** ** Documents with several style blocks *)

Module Documents.
Import PyStr UpdateStyles.

(** A sequence of style blocks: each is ["<style>"], a body and
    ["</style>"], followed by the text that stands before the next block. *)
Fixpoint blocks (bs : list (str * str)) : str :=
  match bs with
  | [] => []
  | (body, gap) :: bs' => start_tag ++ body ++ end_tag ++ gap ++ blocks bs'
  end.

(** The same sequence with every block replaced by the link tag. *)
Fixpoint linked (bs : list (str * str)) : str :=
  match bs with
  | [] => []
  | (_, gap) :: bs' => link_tag ++ gap ++ linked bs'
  end.

(** A block whose body does not close it early and whose following text
    holds no marker. *)
Definition well_formed_block (bg : str * str) : Prop :=
  ~ occurs end_tag (fst bg) /\
  ~ occurs start_tag (snd bg) /\ ~ occurs end_tag (snd bg).

End Documents.

(** ** The file on disk *)

Module Disk.
Import PyStr UpdateStyles.

Definition LF : char := 10%N.
Definition CR : char := 13%N.

(** What [f.read()] returns for a file that holds [raw], the file being
    opened with [open(file_path, 'r', encoding='utf-8')], that is with
    [newline=None]: each CR LF and each other CR is read as LF. *)
Fixpoint universal_newlines (raw : str) : str :=
  match raw with
  | [] => []
  | c :: rest =>
      if N.eqb c CR then
        match rest with
        | d :: rest' =>
            if N.eqb d LF then LF :: universal_newlines rest'
            else LF :: universal_newlines rest
        | [] => [LF]
        end
      else c :: universal_newlines rest
  end.

(** What [f.write(text)] puts in a file opened with
    [open(file_path, 'w', encoding='utf-8')]: each LF is written as
    [os.linesep]. *)
Definition write_newlines (linesep text : str) : str :=
  flat_map (fun c => if N.eqb c LF then linesep else [c]) text.

(** [os.linesep] on POSIX and on Windows. *)
Definition linesep_posix : str := [LF].
Definition linesep_nt : str := [CR; LF].

(** The content of the file after the events of a run: opening with ['w']
    truncates it, and it then holds what was written. *)
Definition disk_after (linesep raw : str) (es : list event) : str :=
  fold_left
    (fun r e => match e with
                | Wrote text => write_newlines linesep text
                | Printed _ => r
                end)
    es raw.

(** One run of the script on a file that holds [raw]: the content of the
    file afterwards, and the lines printed. *)
Definition run_on_disk (linesep raw : str) : str * list str :=
  (disk_after linesep raw (events (run (initial (universal_newlines raw)))),
   prints (events (run (initial (universal_newlines raw))))).

End Disk.

Import PyStr UpdateStyles Documents.
Import Disk.

(** ** Facts about Python strings *)

Section StrFacts.

Implicit Types (s sub pre post a b t : str) (c : char) (k m : nat) (i : Z).

Lemma startswith_iff s sub :
  startswith s sub = true <-> exists post, s = sub ++ post.
Proof.
  revert s; induction sub as [|c sub IH]; intros s; simpl.
  - split; [intros _; now exists s | reflexivity].
  - destruct s as [|d s].
    + split; [discriminate | intros [post H]; discriminate].
    + rewrite andb_true_iff, N.eqb_eq, IH. split.
      * intros [-> [post ->]]. now exists post.
      * intros [post H]. injection H as -> ->. split; [reflexivity | now exists post].
Qed.

Lemma startswith_app a b sub :
  (length sub <= length a)%nat -> startswith (a ++ b) sub = startswith a sub.
Proof.
  revert a; induction sub as [|c sub IH]; intros a Hlen; [reflexivity|].
  destruct a as [|d a]; simpl in *; [lia|].
  rewrite IH by lia. reflexivity.
Qed.

Lemma occurs_at_0 sub s : occurs_at sub s 0 <-> startswith s sub = true.
Proof.
  rewrite startswith_iff. split.
  - intros (pre & post & -> & Hpre). destruct pre; [|discriminate]. now exists post.
  - intros [post ->]. now exists [], post.
Qed.

Lemma occurs_at_S sub c s k : occurs_at sub (c :: s) (S k) <-> occurs_at sub s k.
Proof.
  split.
  - intros (pre & post & H & Hpre). destruct pre as [|d pre]; [discriminate|].
    simpl in H, Hpre. injection H as _ ->. exists pre, post. split; [reflexivity | lia].
  - intros (pre & post & -> & Hpre). exists (c :: pre), post. simpl. split; [reflexivity | lia].
Qed.

Lemma occurs_at_length sub s k :
  occurs_at sub s k -> (k + length sub <= length s)%nat.
Proof.
  intros (pre & post & -> & <-). rewrite !length_app. lia.
Qed.

(** An occurrence, read character by character. *)
Lemma occurs_at_nth sub s k m :
  occurs_at sub s k -> (m < length sub)%nat ->
  nth_error s (k + m) = nth_error sub m.
Proof.
  intros (pre & post & -> & <-) Hm.
  rewrite nth_error_app2 by lia.
  replace (length pre + m - length pre)%nat with m by lia.
  now apply nth_error_app1.
Qed.

Lemma occurs_at_app_l sub a b k : occurs_at sub a k -> occurs_at sub (a ++ b) k.
Proof.
  intros (pre & post & -> & Hk). exists pre, (post ++ b).
  now rewrite <- !app_assoc.
Qed.

Lemma occurs_at_app_r sub a b k :
  occurs_at sub b k -> occurs_at sub (a ++ b) (length a + k).
Proof.
  intros (pre & post & -> & Hk). exists (a ++ pre), post.
  rewrite <- app_assoc, length_app. split; [reflexivity | lia].
Qed.

(** An occurrence that ends inside the left part lies in the left part. *)
Lemma occurs_at_app_inv_l sub a b k :
  occurs_at sub (a ++ b) k -> (k + length sub <= length a)%nat -> occurs_at sub a k.
Proof.
  revert a; induction k as [|k IH]; intros a H Hlen.
  - apply occurs_at_0. apply occurs_at_0 in H.
    rewrite startswith_app in H by lia. exact H.
  - destruct a as [|d a]; simpl in *; [lia|].
    apply occurs_at_S. apply occurs_at_S in H. apply IH; [exact H | lia].
Qed.

(** An occurrence that starts in the right part lies in the right part. *)
Lemma occurs_at_app_inv_r sub a b k :
  occurs_at sub (a ++ b) k -> (length a <= k)%nat -> occurs_at sub b (k - length a).
Proof.
  revert k; induction a as [|d a IH]; intros k H Hlen; simpl in *.
  - now rewrite Nat.sub_0_r.
  - destruct k as [|k]; [lia|]. apply occurs_at_S in H. apply IH; [exact H | lia].
Qed.

Lemma head_onlyb_sound c t : head_onlyb c t = true -> head_only c t.
Proof.
  destruct t as [|d t]; simpl; [discriminate|].
  rewrite andb_true_iff, N.eqb_eq, forallb_forall. intros [-> Ht]. split; [reflexivity|].
  intros [|m] Hm H; [lia|]. simpl in H. apply nth_error_In, Ht in H.
  now rewrite N.eqb_refl in H.
Qed.

(** An occurrence of a string whose first character is nowhere else in it
    does not run across a place where that character stands. *)
Lemma no_straddle c sub a b k :
  head_only c sub -> nth_error b 0 = Some c -> occurs_at sub (a ++ b) k ->
  (k + length sub <= length a)%nat \/ (length a <= k)%nat.
Proof.
  intros [_ Hc] Hb H.
  destruct (le_lt_dec (k + length sub) (length a)) as [|H1]; [now left|].
  destruct (le_lt_dec (length a) k) as [|H2]; [now right|].
  exfalso. apply (Hc (length a - k)%nat); [lia|].
  rewrite <- (occurs_at_nth sub _ k) by (exact H || lia).
  replace (k + (length a - k))%nat with (length a) by lia.
  rewrite nth_error_app2, Nat.sub_diag by lia. exact Hb.
Qed.

(** Two strings with the same first character, found nowhere else in
    either, and different second characters, never overlap in a text. *)
Lemma occurrences_disjoint c p q s (ki kj : nat) :
  head_only c p -> head_only c q ->
  (1 < length p)%nat -> (1 < length q)%nat ->
  nth_error p 1 <> nth_error q 1 ->
  occurs_at p s ki -> occurs_at q s kj ->
  (ki + length p <= kj)%nat \/ (kj + length q <= ki)%nat.
Proof.
  intros [Hp0 Hp] [Hq0 Hq] Lp Lq Hne Oi Oj.
  assert (Hi : nth_error s ki = Some c).
  { rewrite <- Hp0, <- (occurs_at_nth p s ki 0) by (exact Oi || lia). f_equal; lia. }
  assert (Hj : nth_error s kj = Some c).
  { rewrite <- Hq0, <- (occurs_at_nth q s kj 0) by (exact Oj || lia). f_equal; lia. }
  destruct (lt_eq_lt_dec ki kj) as [[Hlt | ->] | Hgt].
  - destruct (le_lt_dec (ki + length p) kj) as [|H1]; [now left|].
    exfalso. apply (Hp (kj - ki)%nat); [lia|].
    rewrite <- (occurs_at_nth p s ki) by (exact Oi || lia).
    rewrite <- Hj. f_equal; lia.
  - exfalso. apply Hne.
    rewrite <- (occurs_at_nth p s kj 1), <- (occurs_at_nth q s kj 1)
      by (assumption || lia). reflexivity.
  - destruct (le_lt_dec (kj + length q) ki) as [|H1]; [now right|].
    exfalso. apply (Hq (ki - kj)%nat); [lia|].
    rewrite <- (occurs_at_nth q s kj) by (exact Oj || lia).
    rewrite <- Hi. f_equal; lia.
Qed.

Lemma first_at_unique sub s (k1 k2 : nat) :
  first_at sub s k1 -> first_at sub s k2 -> k1 = k2.
Proof.
  intros [O1 M1] [O2 M2]. apply M1 in O2. apply M2 in O1. lia.
Qed.

(** What the scan returns: [-1] exactly when there is no occurrence, and
    otherwise the index of the first one. *)
Lemma find_from_cases sub s i :
  (find_from s sub i = -1 /\ forall k, ~ occurs_at sub s k) \/
  (exists k, find_from s sub i = i + Z.of_nat k /\ first_at sub s k).
Proof.
  revert i; induction s as [|d s IH]; intros i; simpl.
  - destruct (startswith [] sub) eqn:E.
    + right. exists 0%nat. split; [lia|]. split; [now apply occurs_at_0 | lia].
    + left. split; [reflexivity|]. intros k H.
      pose proof (occurs_at_length _ _ _ H) as L. simpl in L.
      assert (k = 0%nat) by lia. subst k. apply occurs_at_0 in H. congruence.
  - destruct (startswith (d :: s) sub) eqn:E.
    + right. exists 0%nat. split; [lia|]. split; [now apply occurs_at_0 | lia].
    + destruct (IH (i + 1)) as [[Hf Hno] | (k & Hf & Ho & Hmin)].
      * left. split; [exact Hf|]. intros [|k] H.
        -- apply occurs_at_0 in H. congruence.
        -- apply occurs_at_S in H. now apply (Hno k).
      * right. exists (S k). split; [lia|]. split; [now apply occurs_at_S|].
        intros [|j] H.
        -- apply occurs_at_0 in H. congruence.
        -- apply occurs_at_S, Hmin in H. lia.
Qed.

Lemma find_none sub s : (forall k, ~ occurs_at sub s k) -> find s sub = -1.
Proof.
  intros Hno. unfold find.
  destruct (find_from_cases sub s 0) as [[Hf _] | (k & _ & Ho & _)]; [exact Hf|].
  now destruct (Hno k).
Qed.

Lemma find_first sub s k : first_at sub s k -> find s sub = Z.of_nat k.
Proof.
  intros Hk. unfold find.
  destruct (find_from_cases sub s 0) as [[_ Hno] | (k' & Hf & Hk')].
  - destruct Hk as [Ho _]. now destruct (Hno k).
  - rewrite Hf, (first_at_unique _ _ _ _ Hk Hk'). lia.
Qed.

(** A substring has a first occurrence. *)
Lemma occurs_first sub s : occurs sub s -> exists k, first_at sub s k.
Proof.
  intros [k Hk].
  destruct (find_from_cases sub s 0) as [[_ Hno] | (k' & _ & Hk')].
  - now destruct (Hno k).
  - now exists k'.
Qed.

Lemma find_none_inv sub s : find s sub = -1 -> ~ occurs sub s.
Proof.
  unfold find. intros Hf [k Hk].
  destruct (find_from_cases sub s 0) as [[_ Hno] | (k' & Hf' & _)]; [|lia].
  now apply (Hno k).
Qed.

Lemma find_first_inv sub s k : find s sub = Z.of_nat k -> first_at sub s k.
Proof.
  unfold find. intros Hf.
  destruct (find_from_cases sub s 0) as [[Hf' _] | (k' & Hf' & Hk')]; [lia|].
  now replace k with k' by lia.
Qed.

Lemma positions_from_spec sub s k j :
  In j (positions_from s sub k) <-> exists m, j = (k + m)%nat /\ occurs_at sub s m.
Proof.
  revert k; induction s as [|d s IH]; intros k; simpl positions_from; rewrite in_app_iff.
  - split.
    + intros [H | []]. destruct (startswith [] sub) eqn:E; [|destruct H].
      destruct H as [<- | []]. exists 0%nat. split; [lia | now apply occurs_at_0].
    + intros (m & -> & H). left.
      pose proof (occurs_at_length _ _ _ H) as L. simpl in L.
      assert (m = 0%nat) by lia. subst m. apply occurs_at_0 in H. rewrite H.
      left. lia.
  - rewrite IH. split.
    + intros [H | (m & -> & H)].
      * destruct (startswith (d :: s) sub) eqn:E; [|destruct H].
        destruct H as [<- | []]. exists 0%nat. split; [lia | now apply occurs_at_0].
      * exists (S m). split; [lia | now apply occurs_at_S].
    + intros ([|m] & -> & H).
      * left. apply occurs_at_0 in H. rewrite H. left. lia.
      * right. exists m. split; [lia | now apply occurs_at_S in H].
Qed.

Lemma positions_spec sub s j : In j (positions s sub) <-> occurs_at sub s j.
Proof.
  unfold positions. rewrite positions_from_spec. split.
  - now intros (m & -> & H).
  - intros H. now exists j.
Qed.

Lemma slice_to_app pre post : slice_to (pre ++ post) (len pre) = pre.
Proof.
  unfold slice_to, adjust_index, len. rewrite length_app.
  destruct (Z.ltb_spec (Z.of_nat (length pre)) 0); [lia|].
  rewrite Z.min_l by lia. rewrite Nat2Z.id.
  rewrite firstn_app, Nat.sub_diag, firstn_all. simpl. apply app_nil_r.
Qed.

Lemma slice_from_app pre post : slice_from (pre ++ post) (len pre) = post.
Proof.
  unfold slice_from, adjust_index, len. rewrite length_app.
  destruct (Z.ltb_spec (Z.of_nat (length pre)) 0); [lia|].
  rewrite Z.min_l by lia. rewrite Nat2Z.id.
  rewrite skipn_app, Nat.sub_diag, skipn_all. reflexivity.
Qed.

End StrFacts.

(** ** Facts about the markers and the script *)

Section ScriptFacts.

Implicit Types (content pre post prefix body suffix : str) (w : world).

(** The character ['<'] opens each of the three literals and occurs
    nowhere else in them. *)
Lemma start_tag_head : head_only 60%N start_tag.
Proof. apply head_onlyb_sound. reflexivity. Qed.

Lemma end_tag_head : head_only 60%N end_tag.
Proof. apply head_onlyb_sound. reflexivity. Qed.

Lemma link_tag_head : head_only 60%N link_tag.
Proof. apply head_onlyb_sound. reflexivity. Qed.

Lemma length_start_tag : length start_tag = 7%nat.
Proof. reflexivity. Qed.

Lemma length_end_tag : length end_tag = 8%nat.
Proof. reflexivity. Qed.

Lemma length_link_tag : length link_tag = 45%nat.
Proof. reflexivity. Qed.

(** The two markers never overlap in a text. *)
Lemma markers_disjoint content (i j : nat) :
  occurs_at start_tag content i -> occurs_at end_tag content j ->
  (i + 7 <= j)%nat \/ (j + 8 <= i)%nat.
Proof.
  intros Hi Hj.
  apply (occurrences_disjoint 60%N start_tag end_tag content i j);
    auto using start_tag_head, end_tag_head; simpl; try lia; discriminate.
Qed.

(** Neither marker starts inside the link tag. *)
Lemma start_tag_after_link post (k : nat) :
  occurs_at start_tag (link_tag ++ post) k -> (45 <= k)%nat.
Proof.
  intros H.
  assert (H0 : occurs_at link_tag (link_tag ++ post) 0) by now exists [], post.
  destruct (occurrences_disjoint 60%N link_tag start_tag (link_tag ++ post) 0 k) as [L | L];
    auto using start_tag_head, link_tag_head; simpl in *; try lia; discriminate.
Qed.

Lemma end_tag_after_link post (k : nat) :
  occurs_at end_tag (link_tag ++ post) k -> (45 <= k)%nat.
Proof.
  intros H.
  assert (H0 : occurs_at link_tag (link_tag ++ post) 0) by now exists [], post.
  destruct (occurrences_disjoint 60%N link_tag end_tag (link_tag ++ post) 0 k) as [L | L];
    auto using end_tag_head, link_tag_head; simpl in *; try lia; discriminate.
Qed.

(** The condition of the [if], read through the first occurrences. *)
Lemma found_first content :
  found content = true ->
  exists i j : nat,
    start_index content = Z.of_nat i /\ end_index content = Z.of_nat j /\
    first_at start_tag content i /\ first_at end_tag content j.
Proof.
  unfold found, start_index, end_index, find.
  rewrite andb_true_iff, !negb_true_iff, !Z.eqb_neq. intros [Hs He].
  destruct (find_from_cases start_tag content 0) as [[E _] | (i & Ei & Fi)]; [contradiction|].
  destruct (find_from_cases end_tag content 0) as [[E _] | (j & Ej & Fj)]; [contradiction|].
  exists i, j. split; [lia|]. split; [lia|]. now split.
Qed.

Lemma first_found content (i j : nat) :
  first_at start_tag content i -> first_at end_tag content j -> found content = true.
Proof.
  intros Fi Fj. unfold found, start_index, end_index.
  rewrite (find_first _ _ _ Fi), (find_first _ _ _ Fj).
  rewrite andb_true_iff, !negb_true_iff, !Z.eqb_neq. lia.
Qed.

Lemma found_iff content :
  found content = true <-> occurs start_tag content /\ occurs end_tag content.
Proof.
  split.
  - intros H. destruct (found_first _ H) as (i & j & _ & _ & [Oi _] & [Oj _]).
    split; [now exists i | now exists j].
  - intros [Hs He]. apply occurs_first in Hs, He.
    destruct Hs as [i Fi], He as [j Fj]. exact (first_found _ _ _ Fi Fj).
Qed.

(** The text built on the success branch, read through the first
    occurrences of the two markers. *)
Lemma new_content_split content pre1 post1 pre2 post2 :
  content = pre1 ++ start_tag ++ post1 -> first_at start_tag content (length pre1) ->
  content = pre2 ++ end_tag ++ post2 -> first_at end_tag content (length pre2) ->
  new_content content = pre1 ++ link_tag ++ post2.
Proof.
  intros E1 F1 E2 F2. unfold new_content, start_index, end_index.
  rewrite (find_first _ _ _ F1), (find_first _ _ _ F2).
  f_equal; [|f_equal].
  - rewrite E1. apply slice_to_app.
  - rewrite E2, app_assoc.
    replace (Z.of_nat (length pre2) + len end_tag) with (len (pre2 ++ end_tag))
      by (unfold len; rewrite length_app; lia).
    apply slice_from_app.
Qed.

(** The two branches of the script. *)
Lemma run_found w :
  found (file_text w) = true ->
  run w = mkWorld (new_content (file_text w))
            (events w ++ [Wrote (new_content (file_text w)); Printed msg_success]).
Proof.
  intros H. unfold run, main, bind, read_file, write_file, print.
  rewrite H. simpl. now rewrite <- app_assoc.
Qed.

Lemma run_not_found w :
  found (file_text w) = false ->
  run w = mkWorld (file_text w) (events w ++ [Printed msg_not_found]).
Proof.
  intros H. unfold run, main, bind, read_file, print. now rewrite H.
Qed.

(** A text with one well-formed style block: where the first markers are. *)
Lemma block_first_start prefix body suffix :
  ~ occurs start_tag prefix ->
  first_at start_tag (prefix ++ start_tag ++ body ++ end_tag ++ suffix) (length prefix).
Proof.
  intros Hno. split.
  - now exists prefix, (body ++ end_tag ++ suffix).
  - intros j H.
    destruct (no_straddle 60%N start_tag prefix (start_tag ++ body ++ end_tag ++ suffix) j
                start_tag_head eq_refl H) as [L | L]; [|exact L].
    destruct Hno. exists j. now apply occurs_at_app_inv_l in H.
Qed.

Lemma block_first_end prefix body suffix :
  ~ occurs end_tag prefix -> ~ occurs end_tag body ->
  first_at end_tag (prefix ++ start_tag ++ body ++ end_tag ++ suffix)
    (length (prefix ++ start_tag ++ body)).
Proof.
  intros Hp Hb. split.
  - exists (prefix ++ start_tag ++ body), suffix. now rewrite <- !app_assoc.
  - intros j H. rewrite !length_app, length_start_tag.
    destruct (no_straddle 60%N end_tag prefix (start_tag ++ body ++ end_tag ++ suffix) j
                end_tag_head eq_refl H) as [L | L].
    { destruct Hp. exists j. now apply occurs_at_app_inv_l in H. }
    apply occurs_at_app_inv_r in H; [|exact L].
    assert (L7 : (7 <= j - length prefix)%nat).
    { assert (H0 : occurs_at start_tag (start_tag ++ body ++ end_tag ++ suffix) 0)
        by now exists [], (body ++ end_tag ++ suffix).
      destruct (markers_disjoint _ _ _ H0 H); lia. }
    apply occurs_at_app_inv_r in H; [|rewrite length_start_tag; exact L7].
    rewrite length_start_tag in H.
    destruct (no_straddle 60%N end_tag body (end_tag ++ suffix) _
                end_tag_head eq_refl H) as [L' | L']; [|lia].
    destruct Hb. exists (j - length prefix - 7)%nat. now apply occurs_at_app_inv_l in H.
Qed.

End ScriptFacts.

(** ** The specification, claim by claim *)

(** C1.  When both ["<style>"] and ["</style>"] occur in the text, the
    script writes exactly the text before the first ["<style>"], then the
    link tag, then the text after the end of the first ["</style>"]; each
    marker is located from the beginning of the text, independently of the
    other. *)
Theorem writes_before_link_after (content : str) :
  occurs start_tag content -> occurs end_tag content ->
  exists pre1 post1 pre2 post2 : str,
    content = pre1 ++ start_tag ++ post1 /\
    first_at start_tag content (length pre1) /\
    content = pre2 ++ end_tag ++ post2 /\
    first_at end_tag content (length pre2) /\
    run (initial content) =
      mkWorld (pre1 ++ link_tag ++ post2)
        [Wrote (pre1 ++ link_tag ++ post2); Printed msg_success].
Proof.
  intros Hs He.
  destruct (occurs_first _ _ Hs) as [i Fi], (occurs_first _ _ He) as [j Fj].
  destruct (proj1 Fi) as (pre1 & post1 & E1 & <-).
  destruct (proj1 Fj) as (pre2 & post2 & E2 & <-).
  exists pre1, post1, pre2, post2.
  repeat (split; [assumption|]).
  rewrite run_found by exact (first_found _ _ _ Fi Fj). simpl.
  now rewrite (new_content_split content pre1 post1 pre2 post2).
Qed.

Lemma writes_before_link_after_witness :
  let content := lit "a<style>b</style>c</style>" in
  occurs start_tag content /\ occurs end_tag content /\
  exists pre1 post1 pre2 post2 : str,
    content = pre1 ++ start_tag ++ post1 /\
    first_at start_tag content (length pre1) /\
    content = pre2 ++ end_tag ++ post2 /\
    first_at end_tag content (length pre2) /\
    run (initial content) =
      mkWorld (pre1 ++ link_tag ++ post2)
        [Wrote (pre1 ++ link_tag ++ post2); Printed msg_success].
Proof.
  assert (Hs : occurs start_tag (lit "a<style>b</style>c</style>")).
  { exists 1%nat, (lit "a"), (lit "b</style>c</style>"). split; reflexivity. }
  assert (He : occurs end_tag (lit "a<style>b</style>c</style>")).
  { exists 9%nat, (lit "a<style>b"), (lit "c</style>"). split; reflexivity. }
  split; [exact Hs|]. split; [exact He|].
  exact (writes_before_link_after _ Hs He).
Defined.

(** C2.  When ["<style>"] does not occur in the text, or ["</style>"] does
    not, the script writes nothing, the file keeps its text, and the
    failure line is printed. *)
Theorem missing_marker_no_write (content : str) :
  ~ occurs start_tag content \/ ~ occurs end_tag content ->
  run (initial content) = mkWorld content [Printed msg_not_found] /\
  writes (events (run (initial content))) = [].
Proof.
  intros H.
  assert (Hf : found (file_text (initial content)) = false).
  { simpl. destruct (found content) eqn:E; [|reflexivity].
    apply found_iff in E. tauto. }
  rewrite (run_not_found _ Hf). split; reflexivity.
Qed.

Lemma missing_marker_no_write_witness :
  let content := lit "<html><style>body{}</html>" in
  (~ occurs start_tag content \/ ~ occurs end_tag content) /\
  run (initial content) = mkWorld content [Printed msg_not_found] /\
  writes (events (run (initial content))) = [].
Proof.
  assert (H : ~ occurs start_tag (lit "<html><style>body{}</html>") \/
              ~ occurs end_tag (lit "<html><style>body{}</html>")).
  { right. apply find_none_inv. reflexivity. }
  split; [exact H|].
  exact (missing_marker_no_write _ H).
Defined.

(** The text written for one well-formed block: on a text
    [prefix ++ "<style>" ++ body ++ "</style>" ++ suffix] whose prefix
    contains neither marker and whose body does not contain ["</style>"]
    (the marker ["<style>"] itself cannot contain it), one run writes
    [prefix ++ link ++ suffix]. *)
Theorem one_block_replaced (prefix body suffix : str) :
  ~ occurs start_tag prefix -> ~ occurs end_tag prefix -> ~ occurs end_tag body ->
  run (initial (prefix ++ start_tag ++ body ++ end_tag ++ suffix)) =
    mkWorld (prefix ++ link_tag ++ suffix)
      [Wrote (prefix ++ link_tag ++ suffix); Printed msg_success].
Proof.
  intros Hps Hpe Hbe.
  pose proof (block_first_start prefix body suffix Hps) as Fs.
  pose proof (block_first_end prefix body suffix Hpe Hbe) as Fe.
  rewrite run_found by exact (first_found _ _ _ Fs Fe). simpl.
  rewrite (new_content_split _ prefix (body ++ end_tag ++ suffix)
             (prefix ++ start_tag ++ body) suffix);
    auto; now rewrite <- !app_assoc.
Qed.

(** Writing leaves everything but LF as it is, the three literals in
    particular. *)
Lemma write_newlines_app (linesep a b : str) :
  write_newlines linesep (a ++ b) = write_newlines linesep a ++ write_newlines linesep b.
Proof. apply flat_map_app. Qed.

Lemma write_newlines_start_tag (linesep : str) : write_newlines linesep start_tag = start_tag.
Proof. reflexivity. Qed.

Lemma write_newlines_end_tag (linesep : str) : write_newlines linesep end_tag = end_tag.
Proof. reflexivity. Qed.

Lemma write_newlines_link_tag (linesep : str) : write_newlines linesep link_tag = link_tag.
Proof. reflexivity. Qed.

(** C3, as stated, fails on the file's bytes.  The file
    [a CR LF <style>x</style> CR LF b CR c] has one well-formed block, yet
    after the run the file is not its prefix, the link tag and its suffix:
    the CR LF and the CR have been read as LF and written as [os.linesep],
    on POSIX and on Windows. *)
Lemma one_block_bytes_not_kept :
  ~ occurs start_tag (lit "a" ++ [CR; LF]) /\
  ~ occurs end_tag (lit "a" ++ [CR; LF]) /\
  ~ occurs end_tag (lit "x") /\
  fst (run_on_disk linesep_posix
         ((lit "a" ++ [CR; LF]) ++ start_tag ++ lit "x" ++ end_tag ++
          ([CR; LF] ++ lit "b" ++ [CR] ++ lit "c"))) <>
    (lit "a" ++ [CR; LF]) ++ link_tag ++ ([CR; LF] ++ lit "b" ++ [CR] ++ lit "c") /\
  fst (run_on_disk linesep_nt
         ((lit "a" ++ [CR; LF]) ++ start_tag ++ lit "x" ++ end_tag ++
          ([CR; LF] ++ lit "b" ++ [CR] ++ lit "c"))) <>
    (lit "a" ++ [CR; LF]) ++ link_tag ++ ([CR; LF] ++ lit "b" ++ [CR] ++ lit "c").
Proof.
  split; [apply find_none_inv; reflexivity|].
  split; [apply find_none_inv; reflexivity|].
  split; [apply find_none_inv; reflexivity|].
  split; intros H; vm_compute in H; discriminate H.
Qed.

(** C3, amended.  On a text
    [prefix ++ "<style>" ++ body ++ "</style>" ++ suffix] whose prefix
    contains neither marker and whose body does not contain ["</style>"],
    one run writes the text [prefix ++ link ++ suffix]: the block is
    replaced by the link tag and the prefix and the suffix are kept as
    text.  On disk, for any file that reads as this text, the file holds
    afterwards the prefix and the suffix with each LF written as
    [os.linesep], around the link tag; and when the line ends of the file
    were [os.linesep] already, these are the very prefix and suffix of the
    file, byte for byte. *)
Theorem one_block_replaced_on_disk (prefix body suffix : str) :
  ~ occurs start_tag prefix -> ~ occurs end_tag prefix -> ~ occurs end_tag body ->
  run (initial (prefix ++ start_tag ++ body ++ end_tag ++ suffix)) =
    mkWorld (prefix ++ link_tag ++ suffix)
      [Wrote (prefix ++ link_tag ++ suffix); Printed msg_success] /\
  forall linesep raw : str,
    universal_newlines raw = prefix ++ start_tag ++ body ++ end_tag ++ suffix ->
    run_on_disk linesep raw =
      (write_newlines linesep prefix ++ link_tag ++ write_newlines linesep suffix,
       [msg_success]) /\
    (write_newlines linesep (universal_newlines raw) = raw ->
     raw = write_newlines linesep prefix ++ start_tag ++
           write_newlines linesep body ++ end_tag ++ write_newlines linesep suffix).
Proof.
  intros Hps Hpe Hbe.
  pose proof (one_block_replaced prefix body suffix Hps Hpe Hbe) as Hrun.
  split; [exact Hrun|].
  intros linesep raw Hread. split.
  - unfold run_on_disk. rewrite Hread, Hrun.
    cbn [events disk_after fold_left prints flat_map app].
    now rewrite !write_newlines_app, write_newlines_link_tag.
  - intros Hform. rewrite <- Hform at 1. rewrite Hread.
    now rewrite !write_newlines_app, write_newlines_start_tag, write_newlines_end_tag.
Qed.

Lemma one_block_replaced_on_disk_witness :
  ~ occurs start_tag (lit "<head>" ++ [LF]) /\
  ~ occurs end_tag (lit "<head>" ++ [LF]) /\
  ~ occurs end_tag (lit "p{}" ++ [LF]) /\
  universal_newlines
    ((lit "<head>" ++ [CR; LF]) ++ start_tag ++ (lit "p{}" ++ [CR; LF]) ++ end_tag ++
     ([CR; LF] ++ lit "</head>")) =
    (lit "<head>" ++ [LF]) ++ start_tag ++ (lit "p{}" ++ [LF]) ++ end_tag ++
    ([LF] ++ lit "</head>") /\
  write_newlines linesep_nt
    (universal_newlines
       ((lit "<head>" ++ [CR; LF]) ++ start_tag ++ (lit "p{}" ++ [CR; LF]) ++ end_tag ++
        ([CR; LF] ++ lit "</head>"))) =
    (lit "<head>" ++ [CR; LF]) ++ start_tag ++ (lit "p{}" ++ [CR; LF]) ++ end_tag ++
    ([CR; LF] ++ lit "</head>") /\
  run (initial ((lit "<head>" ++ [LF]) ++ start_tag ++ (lit "p{}" ++ [LF]) ++ end_tag ++
                ([LF] ++ lit "</head>"))) =
    mkWorld ((lit "<head>" ++ [LF]) ++ link_tag ++ ([LF] ++ lit "</head>"))
      [Wrote ((lit "<head>" ++ [LF]) ++ link_tag ++ ([LF] ++ lit "</head>"));
       Printed msg_success] /\
  run_on_disk linesep_nt
    ((lit "<head>" ++ [CR; LF]) ++ start_tag ++ (lit "p{}" ++ [CR; LF]) ++ end_tag ++
     ([CR; LF] ++ lit "</head>")) =
    (write_newlines linesep_nt (lit "<head>" ++ [LF]) ++ link_tag ++
     write_newlines linesep_nt ([LF] ++ lit "</head>"),
     [msg_success]) /\
  (lit "<head>" ++ [CR; LF]) ++ start_tag ++ (lit "p{}" ++ [CR; LF]) ++ end_tag ++
  ([CR; LF] ++ lit "</head>") =
    write_newlines linesep_nt (lit "<head>" ++ [LF]) ++ start_tag ++
    write_newlines linesep_nt (lit "p{}" ++ [LF]) ++ end_tag ++
    write_newlines linesep_nt ([LF] ++ lit "</head>").
Proof.
  assert (H1 : ~ occurs start_tag (lit "<head>" ++ [LF])) by (apply find_none_inv; reflexivity).
  assert (H2 : ~ occurs end_tag (lit "<head>" ++ [LF])) by (apply find_none_inv; reflexivity).
  assert (H3 : ~ occurs end_tag (lit "p{}" ++ [LF])) by (apply find_none_inv; reflexivity).
  assert (H4 : universal_newlines
                 ((lit "<head>" ++ [CR; LF]) ++ start_tag ++ (lit "p{}" ++ [CR; LF]) ++
                  end_tag ++ ([CR; LF] ++ lit "</head>")) =
               (lit "<head>" ++ [LF]) ++ start_tag ++ (lit "p{}" ++ [LF]) ++ end_tag ++
               ([LF] ++ lit "</head>")) by reflexivity.
  assert (H5 : write_newlines linesep_nt
                 (universal_newlines
                    ((lit "<head>" ++ [CR; LF]) ++ start_tag ++ (lit "p{}" ++ [CR; LF]) ++
                     end_tag ++ ([CR; LF] ++ lit "</head>"))) =
               (lit "<head>" ++ [CR; LF]) ++ start_tag ++ (lit "p{}" ++ [CR; LF]) ++
               end_tag ++ ([CR; LF] ++ lit "</head>")) by reflexivity.
  destruct (one_block_replaced_on_disk (lit "<head>" ++ [LF]) (lit "p{}" ++ [LF])
              ([LF] ++ lit "</head>") H1 H2 H3) as [Htext Hdisk].
  destruct (Hdisk linesep_nt _ H4) as [Hrun Hraw].
  split; [exact H1|]. split; [exact H2|]. split; [exact H3|].
  split; [exact H4|]. split; [exact H5|]. split; [exact Htext|].
  split; [exact Hrun | exact (Hraw H5)].
Defined.

(** C4.  The script writes the file and prints the success line exactly
    when both markers occur somewhere in the text, whatever their order:
    the end marker is searched from the start of the text, so a text whose
    first ["</style>"] comes before its first ["<style>"] takes the success
    branch too. *)
Theorem success_iff_both_markers (content : str) :
  ((exists text, run (initial content) = mkWorld text [Wrote text; Printed msg_success])
   <-> occurs start_tag content /\ occurs end_tag content) /\
  (forall i j : nat,
     first_at start_tag content i -> first_at end_tag content j -> (j < i)%nat ->
     exists text, run (initial content) = mkWorld text [Wrote text; Printed msg_success]).
Proof.
  assert (Hyes : found content = true ->
            exists text, run (initial content) = mkWorld text [Wrote text; Printed msg_success]).
  { intros Hf. exists (new_content content). now rewrite run_found. }
  split; [split|].
  - intros [text Hrun]. apply found_iff.
    destruct (found content) eqn:E; [reflexivity|].
    rewrite run_not_found in Hrun by exact E. discriminate.
  - intros H. apply Hyes, found_iff, H.
  - intros i j Fi Fj _. exact (Hyes (first_found _ _ _ Fi Fj)).
Qed.

Lemma success_iff_both_markers_witness :
  first_at start_tag (lit "x</style>y<style>z") 10 /\
  first_at end_tag (lit "x</style>y<style>z") 1 /\
  (1 < 10)%nat /\
  exists text,
    run (initial (lit "x</style>y<style>z")) = mkWorld text [Wrote text; Printed msg_success].
Proof.
  assert (Fs : first_at start_tag (lit "x</style>y<style>z") 10)
    by (apply find_first_inv; reflexivity).
  assert (Fe : first_at end_tag (lit "x</style>y<style>z") 1)
    by (apply find_first_inv; reflexivity).
  assert (L : (1 < 10)%nat) by lia.
  split; [exact Fs|]. split; [exact Fe|]. split; [exact L|].
  exact (proj2 (success_iff_both_markers (lit "x</style>y<style>z")) 10%nat 1%nat Fs Fe L).
Defined.

(** The patched text [pre ++ link ++ post] contains a marker only if [pre]
    or [post] does: none appears across the two seams or inside the link
    tag. *)
Lemma patched_free (sub pre post : str) :
  head_only 60%N sub ->
  (forall k, occurs_at sub (link_tag ++ post) k -> (45 <= k)%nat) ->
  ~ occurs sub pre -> ~ occurs sub post ->
  ~ occurs sub (pre ++ link_tag ++ post).
Proof.
  intros Hh Hlink Hpre Hpost [k H].
  destruct (no_straddle 60%N sub pre (link_tag ++ post) k Hh eq_refl H) as [L | L].
  - apply Hpre. exists k. now apply occurs_at_app_inv_l in H.
  - apply occurs_at_app_inv_r in H; [|exact L].
    pose proof (Hlink _ H) as L45.
    apply occurs_at_app_inv_r in H; [|rewrite length_link_tag; exact L45].
    apply Hpost. now exists (k - length pre - length link_tag)%nat.
Qed.

(** C5.  On a text with exactly one well-formed style block (one occurrence
    of ["<style>"], one of ["</style>"], the former first), the first run
    succeeds, the text it leaves contains neither marker, and a second run
    on that text prints the not-found line and leaves it unchanged. *)
Theorem second_run_not_found (content : str) (i j : nat) :
  (forall k, occurs_at start_tag content k <-> k = i) ->
  (forall k, occurs_at end_tag content k <-> k = j) ->
  (i < j)%nat ->
  exists patched,
    run (initial content) = mkWorld patched [Wrote patched; Printed msg_success] /\
    ~ occurs start_tag patched /\ ~ occurs end_tag patched /\
    run (run (initial content)) =
      mkWorld patched [Wrote patched; Printed msg_success; Printed msg_not_found].
Proof.
  intros Us Ue Hij.
  assert (Fi : first_at start_tag content i).
  { split; [now apply Us|]. intros k Hk. apply Us in Hk. lia. }
  assert (Fj : first_at end_tag content j).
  { split; [now apply Ue|]. intros k Hk. apply Ue in Hk. lia. }
  destruct (proj1 Fi) as (pre1 & post1 & E1 & L1).
  destruct (proj1 Fj) as (pre2 & post2 & E2 & L2).
  exists (pre1 ++ link_tag ++ post2).
  assert (Hrun : run (initial content) =
            mkWorld (pre1 ++ link_tag ++ post2)
              [Wrote (pre1 ++ link_tag ++ post2); Printed msg_success]).
  { rewrite run_found by exact (first_found _ _ _ Fi Fj). simpl.
    rewrite (new_content_split content pre1 post1 pre2 post2); subst i j; auto. }
  assert (Hnos : ~ occurs start_tag (pre1 ++ link_tag ++ post2)).
  { apply patched_free.
    - exact start_tag_head.
    - intros k. apply start_tag_after_link.
    - intros [k Hk]. pose proof (occurs_at_length _ _ _ Hk) as L.
      apply (occurs_at_app_l _ _ (start_tag ++ post1)) in Hk.
      rewrite <- E1 in Hk. apply Us in Hk. rewrite length_start_tag in L. lia.
    - intros [k Hk]. apply (occurs_at_app_r _ (pre2 ++ end_tag)) in Hk.
      rewrite <- app_assoc, <- E2 in Hk. apply Us in Hk.
      rewrite length_app, length_end_tag in Hk. lia. }
  assert (Hnoe : ~ occurs end_tag (pre1 ++ link_tag ++ post2)).
  { apply patched_free.
    - exact end_tag_head.
    - intros k. apply end_tag_after_link.
    - intros [k Hk]. pose proof (occurs_at_length _ _ _ Hk) as L.
      apply (occurs_at_app_l _ _ (start_tag ++ post1)) in Hk.
      rewrite <- E1 in Hk. apply Ue in Hk. rewrite length_end_tag in L. lia.
    - intros [k Hk]. apply (occurs_at_app_r _ (pre2 ++ end_tag)) in Hk.
      rewrite <- app_assoc, <- E2 in Hk. apply Ue in Hk.
      rewrite length_app, length_end_tag in Hk. lia. }
  split; [exact Hrun|]. split; [exact Hnos|]. split; [exact Hnoe|].
  rewrite Hrun. rewrite run_not_found; [reflexivity|]. cbn [file_text].
  destruct (found (pre1 ++ link_tag ++ post2)) eqn:E; [|reflexivity].
  apply found_iff in E. tauto.
Qed.

(** On a concrete text, the occurrences of a marker are the computed
    [positions]. *)
Lemma occurs_at_only (sub s : str) (i : nat) :
  positions s sub = [i] -> forall k, occurs_at sub s k <-> k = i.
Proof.
  intros Hp k. rewrite <- positions_spec, Hp. simpl. split.
  - intros [H | []]. now symmetry.
  - intros ->. now left.
Qed.

Lemma second_run_not_found_witness :
  (forall k, occurs_at start_tag (lit "<p><style>p{}</style></p>") k <-> k = 3%nat) /\
  (forall k, occurs_at end_tag (lit "<p><style>p{}</style></p>") k <-> k = 13%nat) /\
  (3 < 13)%nat /\
  exists patched,
    run (initial (lit "<p><style>p{}</style></p>")) =
      mkWorld patched [Wrote patched; Printed msg_success] /\
    ~ occurs start_tag patched /\ ~ occurs end_tag patched /\
    run (run (initial (lit "<p><style>p{}</style></p>"))) =
      mkWorld patched [Wrote patched; Printed msg_success; Printed msg_not_found].
Proof.
  assert (Us : forall k, occurs_at start_tag (lit "<p><style>p{}</style></p>") k <-> k = 3%nat)
    by (apply occurs_at_only; reflexivity).
  assert (Ue : forall k, occurs_at end_tag (lit "<p><style>p{}</style></p>") k <-> k = 13%nat)
    by (apply occurs_at_only; reflexivity).
  assert (L : (3 < 13)%nat) by lia.
  split; [exact Us|]. split; [exact Ue|]. split; [exact L|].
  exact (second_run_not_found _ 3%nat 13%nat Us Ue L).
Defined.

(** C6.  On ["<html><style>body{color:red}</style></html>"] the script
    writes [<html><link rel="stylesheet" href="css/styles.css"></html>] and
    prints the success line. *)
Theorem scenario_style_block :
  run (initial (lit "<html><style>body{color:red}</style></html>")) =
    mkWorld
      (lit "<html><link rel=" ++ [34%N] ++ lit "stylesheet" ++ [34%N] ++
       lit " href=" ++ [34%N] ++ lit "css/styles.css" ++ [34%N] ++ lit "></html>")
      [Wrote (lit "<html><link rel=" ++ [34%N] ++ lit "stylesheet" ++ [34%N] ++
              lit " href=" ++ [34%N] ++ lit "css/styles.css" ++ [34%N] ++ lit "></html>");
       Printed (lit "Successfully replaced style block with link.")].
Proof. vm_compute. reflexivity. Qed.

(** C7.  On ["<html><p>no style here</p></html>"] the script writes
    nothing, the file keeps its text, and the not-found line is printed. *)
Theorem scenario_no_style :
  run (initial (lit "<html><p>no style here</p></html>")) =
    mkWorld (lit "<html><p>no style here</p></html>")
      [Printed (lit "Could not find style block.")].
Proof. vm_compute. reflexivity. Qed.

(** C8.  On every text the script prints exactly one line, one of the two
    status lines, and it prints the success line exactly when it wrote the
    file. *)
Theorem one_status_line (content : str) :
  (prints (events (run (initial content))) =
     [lit "Successfully replaced style block with link."] \/
   prints (events (run (initial content))) =
     [lit "Could not find style block."]) /\
  (prints (events (run (initial content))) =
     [lit "Successfully replaced style block with link."]
   <-> exists text, writes (events (run (initial content))) = [text] /\
                    file_text (run (initial content)) = text) /\
  (prints (events (run (initial content))) =
     [lit "Could not find style block."]
   <-> writes (events (run (initial content))) = [] /\
       file_text (run (initial content)) = content).
Proof.
  destruct (found content) eqn:E.
  - rewrite run_found by exact E. cbn [initial file_text events app writes prints flat_map].
    split; [now left|]. split; split.
    + intros _. now exists (new_content content).
    + reflexivity.
    + discriminate.
    + intros [H _]. discriminate.
  - rewrite run_not_found by exact E. cbn [initial file_text events app writes prints flat_map].
    split; [now right|]. split; split.
    + discriminate.
    + intros (text & H & _). discriminate.
    + now split.
    + reflexivity.
Qed.

(** C9.  When the first ["</style>"] ends at or before the first
    ["<style>"], the script prints the success line although the text it
    writes still contains ["<style>"]: the part kept after the end marker
    holds the start marker again, and the text between the two markers is
    there twice. *)
Theorem reversed_markers_keep_style (content : str) (i j : nat) :
  first_at start_tag content i -> first_at end_tag content j ->
  (j + length end_tag <= i)%nat ->
  exists pre mid rest : str,
    length pre = j /\ length (pre ++ end_tag ++ mid) = i /\
    content = pre ++ end_tag ++ mid ++ start_tag ++ rest /\
    run (initial content) =
      mkWorld ((pre ++ end_tag ++ mid) ++ link_tag ++ (mid ++ start_tag ++ rest))
        [Wrote ((pre ++ end_tag ++ mid) ++ link_tag ++ (mid ++ start_tag ++ rest));
         Printed msg_success] /\
    occurs start_tag ((pre ++ end_tag ++ mid) ++ link_tag ++ (mid ++ start_tag ++ rest)).
Proof.
  intros Fi Fj Hji.
  destruct (proj1 Fj) as (pre & post2 & E2 & L2).
  pose proof (proj1 Fi) as Oi. rewrite E2, app_assoc in Oi.
  apply occurs_at_app_inv_r in Oi; [|rewrite length_app; lia].
  destruct Oi as (mid & rest & Epost & Lmid).
  rewrite length_app in Lmid.
  assert (Li : length (pre ++ end_tag ++ mid) = i) by (rewrite !length_app; lia).
  assert (E1 : content = (pre ++ end_tag ++ mid) ++ start_tag ++ rest)
    by (rewrite E2, Epost, <- !app_assoc; reflexivity).
  exists pre, mid, rest.
  split; [exact L2|]. split; [exact Li|].
  split; [rewrite E1, <- !app_assoc; reflexivity|]. split.
  - rewrite run_found by exact (first_found _ _ _ Fi Fj). cbn [initial file_text events app].
    rewrite (new_content_split content (pre ++ end_tag ++ mid) rest pre post2);
      try assumption; [now rewrite Epost | now rewrite Li | now rewrite L2].
  - exists (length ((pre ++ end_tag ++ mid) ++ link_tag ++ mid)),
      ((pre ++ end_tag ++ mid) ++ link_tag ++ mid), rest.
    split; [|reflexivity]. now rewrite <- !app_assoc.
Qed.

Lemma reversed_markers_keep_style_witness :
  first_at start_tag (lit "a</style>bc<style>d") 11 /\
  first_at end_tag (lit "a</style>bc<style>d") 1 /\
  (1 + length end_tag <= 11)%nat /\
  exists pre mid rest : str,
    length pre = 1%nat /\ length (pre ++ end_tag ++ mid) = 11%nat /\
    lit "a</style>bc<style>d" = pre ++ end_tag ++ mid ++ start_tag ++ rest /\
    run (initial (lit "a</style>bc<style>d")) =
      mkWorld ((pre ++ end_tag ++ mid) ++ link_tag ++ (mid ++ start_tag ++ rest))
        [Wrote ((pre ++ end_tag ++ mid) ++ link_tag ++ (mid ++ start_tag ++ rest));
         Printed msg_success] /\
    occurs start_tag ((pre ++ end_tag ++ mid) ++ link_tag ++ (mid ++ start_tag ++ rest)).
Proof.
  assert (Fs : first_at start_tag (lit "a</style>bc<style>d") 11)
    by (apply find_first_inv; reflexivity).
  assert (Fe : first_at end_tag (lit "a</style>bc<style>d") 1)
    by (apply find_first_inv; reflexivity).
  assert (L : (1 + length end_tag <= 11)%nat) by (simpl; lia).
  split; [exact Fs|]. split; [exact Fe|]. split; [exact L|].
  exact (reversed_markers_keep_style _ 11%nat 1%nat Fs Fe L).
Defined.

(** C10.  The script is defined on every text.  On the success branch both
    indices are non-negative, each marker lies inside the text (so the
    second slice starts at most at the end of the text), the two markers do
    not overlap, and the two slices are taken at the computed indices as
    they are, with no clamping. *)
Theorem transformation_total (content : str) :
  (exists w', main (initial content) = (tt, w')) /\
  (found content = true ->
   0 <= start_index content /\ start_index content + len start_tag <= len content /\
   0 <= end_index content /\ end_index content + len end_tag <= len content /\
   (start_index content + len start_tag <= end_index content \/
    end_index content + len end_tag <= start_index content) /\
   new_content content =
     firstn (Z.to_nat (start_index content)) content ++ link_tag ++
     skipn (Z.to_nat (end_index content + len end_tag)) content).
Proof.
  split.
  - unfold main, bind, read_file, write_file, print.
    destruct (found (file_text (initial content))); eexists; reflexivity.
  - intros Hf.
    destruct (found_first _ Hf) as (i & j & Ei & Ej & [Oi _] & [Oj _]).
    pose proof (occurs_at_length _ _ _ Oi) as Li.
    pose proof (occurs_at_length _ _ _ Oj) as Lj.
    pose proof (markers_disjoint _ _ _ Oi Oj) as D.
    rewrite length_start_tag in Li. rewrite length_end_tag in Lj.
    unfold new_content, slice_to, slice_from, adjust_index.
    rewrite Ei, Ej. unfold len. rewrite length_start_tag, length_end_tag.
    repeat (split; [lia|]).
    destruct (Z.ltb_spec (Z.of_nat i) 0); [lia|].
    destruct (Z.ltb_spec (Z.of_nat j + Z.of_nat 8) 0); [lia|].
    rewrite !Z.min_l by lia. reflexivity.
Qed.

Lemma transformation_total_witness :
  found (lit "</style><style>") = true /\
  0 <= start_index (lit "</style><style>") /\
  start_index (lit "</style><style>") + len start_tag <= len (lit "</style><style>") /\
  0 <= end_index (lit "</style><style>") /\
  end_index (lit "</style><style>") + len end_tag <= len (lit "</style><style>") /\
  (start_index (lit "</style><style>") + len start_tag <= end_index (lit "</style><style>") \/
   end_index (lit "</style><style>") + len end_tag <= start_index (lit "</style><style>")) /\
  new_content (lit "</style><style>") =
    firstn (Z.to_nat (start_index (lit "</style><style>"))) (lit "</style><style>") ++
    link_tag ++
    skipn (Z.to_nat (end_index (lit "</style><style>") + len end_tag)) (lit "</style><style>").
Proof.
  assert (H : found (lit "</style><style>") = true) by reflexivity.
  split; [exact H|].
  exact (proj2 (transformation_total (lit "</style><style>")) H).
Defined.

(** ** Further properties of the script *)

Section MoreFacts.

Implicit Types (content pre post sub : str) (w : world) (i j k : nat).

(** A run looks at the file's text only, and adds its events after the
    earlier ones. *)
Lemma run_initial w :
  run w = mkWorld (file_text (run (initial (file_text w))))
            (events w ++ events (run (initial (file_text w)))).
Proof.
  destruct (found (file_text w)) eqn:E.
  - rewrite (run_found w E), (run_found (initial (file_text w)) E). reflexivity.
  - rewrite (run_not_found w E), (run_not_found (initial (file_text w)) E). reflexivity.
Qed.

Lemma prints_app (es1 es2 : list event) : prints (es1 ++ es2) = prints es1 ++ prints es2.
Proof. apply flat_map_app. Qed.

Lemma writes_app (es1 es2 : list event) : writes (es1 ++ es2) = writes es1 ++ writes es2.
Proof. apply flat_map_app. Qed.

(** Where a marker can stand in [pre ++ link ++ post]: wholly in [pre], or
    wholly in [post]. *)
Lemma marker_in_patched sub pre post k :
  head_only 60%N sub ->
  (forall m, occurs_at sub (link_tag ++ post) m -> (45 <= m)%nat) ->
  occurs_at sub (pre ++ link_tag ++ post) k ->
  ((k + length sub <= length pre)%nat /\ occurs_at sub pre k) \/
  ((length pre + 45 <= k)%nat /\ occurs_at sub post (k - length pre - 45)).
Proof.
  intros Hh Hlink H.
  destruct (no_straddle 60%N sub pre (link_tag ++ post) k Hh eq_refl H) as [L | L].
  - left. split; [exact L | now apply occurs_at_app_inv_l in H].
  - right. apply occurs_at_app_inv_r in H; [|exact L].
    pose proof (Hlink _ H) as L45.
    apply occurs_at_app_inv_r in H; [|rewrite length_link_tag; exact L45].
    rewrite length_link_tag in H. split; [lia | exact H].
Qed.

Lemma marker_after_link sub post m :
  sub = start_tag \/ sub = end_tag ->
  occurs_at sub (link_tag ++ post) m -> (45 <= m)%nat.
Proof.
  intros [-> | ->]; [apply start_tag_after_link | apply end_tag_after_link].
Qed.

Lemma marker_head sub : sub = start_tag \/ sub = end_tag -> head_only 60%N sub.
Proof.
  intros [-> | ->]; [exact start_tag_head | exact end_tag_head].
Qed.

End MoreFacts.

(** X1.  On the success branch the written text is as long as the text
    before the first ["<style>"], the link tag and the text after the first
    ["</style>"] together. *)
Theorem new_content_length (content : str) :
  found content = true ->
  len (new_content content) =
    start_index content + len link_tag +
    (len content - (end_index content + len end_tag)).
Proof.
  intros Hf.
  destruct (found_first _ Hf) as (i & j & Ei & Ej & Fi & Fj).
  destruct (proj1 Fi) as (pre1 & post1 & E1 & L1).
  destruct (proj1 Fj) as (pre2 & post2 & E2 & L2).
  rewrite (new_content_split content pre1 post1 pre2 post2) by (subst i j; assumption).
  rewrite Ei, Ej. unfold len. rewrite E2. rewrite !length_app. lia.
Qed.

Lemma new_content_length_witness :
  found (lit "<b><style>i{}</style></b>") = true /\
  len (new_content (lit "<b><style>i{}</style></b>")) =
    start_index (lit "<b><style>i{}</style></b>") + len link_tag +
    (len (lit "<b><style>i{}</style></b>") -
     (end_index (lit "<b><style>i{}</style></b>") + len end_tag)).
Proof.
  assert (H : found (lit "<b><style>i{}</style></b>") = true) by reflexivity.
  split; [exact H|].
  exact (new_content_length _ H).
Defined.

(** X2.  The script creates no marker.  With the first ["<style>"] at [i]
    and the first ["</style>"] at [j], a marker stands at index [k] of the
    written text exactly when it stood at [k] in the original text, wholly
    before [i], or [k] is [i + 45 + m] and it stood at [j + 8 + m] in the
    original text, after the first ["</style>"]. *)
Theorem markers_of_new_content (content sub : str) (i j k : nat) :
  first_at start_tag content i -> first_at end_tag content j ->
  sub = start_tag \/ sub = end_tag ->
  (occurs_at sub (new_content content) k <->
   ((k + length sub <= i)%nat /\ occurs_at sub content k) \/
   (exists m, k = (i + 45 + m)%nat /\ occurs_at sub content (j + 8 + m))).
Proof.
  intros Fi Fj Hsub.
  destruct (proj1 Fi) as (pre1 & post1 & E1 & L1).
  destruct (proj1 Fj) as (pre2 & post2 & E2 & L2).
  rewrite (new_content_split content pre1 post1 pre2 post2) by (subst i j; assumption).
  assert (Hpost : forall m, occurs_at sub post2 m <-> occurs_at sub content (j + 8 + m)).
  { intros m. split.
    - intros H. apply (occurs_at_app_r _ (pre2 ++ end_tag)) in H.
      rewrite <- app_assoc, <- E2, length_app, length_end_tag, L2 in H. exact H.
    - intros H. rewrite E2, app_assoc in H.
      apply occurs_at_app_inv_r in H; rewrite length_app, length_end_tag, L2 in *; [|lia].
      now replace (j + 8 + m - (j + 8))%nat with m in H by lia. }
  assert (Hpre : forall m, (m + length sub <= i)%nat ->
                   (occurs_at sub pre1 m <-> occurs_at sub content m)).
  { intros m Lm. split.
    - intros H. rewrite E1. now apply occurs_at_app_l.
    - intros H. rewrite E1 in H. apply occurs_at_app_inv_l in H; [exact H | lia]. }
  split.
  - intros H.
    destruct (marker_in_patched sub pre1 post2 k (marker_head _ Hsub)
                (fun m => marker_after_link sub post2 m Hsub) H) as [[L O] | [L O]].
    + left. rewrite L1 in L. split; [exact L | now apply Hpre].
    + right. exists (k - length pre1 - 45)%nat. split; [lia | now apply Hpost].
  - intros [[L O] | (m & -> & O)].
    + apply occurs_at_app_l. now apply Hpre.
    + apply Hpost in O. apply (occurs_at_app_r _ (pre1 ++ link_tag)) in O.
      rewrite <- app_assoc, length_app, length_link_tag, L1 in O. exact O.
Qed.

Lemma markers_of_new_content_witness :
  first_at start_tag (lit "<style>a</style>b<style>c") 0 /\
  first_at end_tag (lit "<style>a</style>b<style>c") 8 /\
  (start_tag = start_tag \/ start_tag = end_tag) /\
  (occurs_at start_tag (new_content (lit "<style>a</style>b<style>c")) 46 <->
   ((46 + length start_tag <= 0)%nat /\
    occurs_at start_tag (lit "<style>a</style>b<style>c") 46) \/
   (exists m, 46%nat = (0 + 45 + m)%nat /\
      occurs_at start_tag (lit "<style>a</style>b<style>c") (8 + 8 + m))).
Proof.
  assert (Fs : first_at start_tag (lit "<style>a</style>b<style>c") 0)
    by (apply find_first_inv; reflexivity).
  assert (Fe : first_at end_tag (lit "<style>a</style>b<style>c") 8)
    by (apply find_first_inv; reflexivity).
  assert (Hs : start_tag = start_tag \/ start_tag = end_tag) by now left.
  split; [exact Fs|]. split; [exact Fe|]. split; [exact Hs|].
  exact (markers_of_new_content _ start_tag 0%nat 8%nat 46%nat Fs Fe Hs).
Defined.

(** X3.  When the first ["</style>"] ends at or before the first
    ["<style>"], the written text is in the same situation again: its first
    ["</style>"] is where it was, its first ["<style>"] is further to the
    right, and it is at least 45 characters longer than the original. *)
Theorem reversed_stays_reversed (content : str) (i j : nat) :
  first_at start_tag content i -> first_at end_tag content j ->
  (j + 8 <= i)%nat ->
  first_at end_tag (new_content content) j /\
  first_at start_tag (new_content content) (i + 45 + (i - (j + 8))) /\
  length (new_content content) = (length content + 45 + (i - (j + 8)))%nat.
Proof.
  intros Fi Fj Hji.
  pose proof (fun sub k => markers_of_new_content content sub i j k Fi Fj) as M.
  split; [|split].
  - split.
    + apply M; [now right|]. left. rewrite length_end_tag. split; [lia | apply Fj].
    + intros k Hk. apply M in Hk; [|now right].
      destruct Hk as [[_ O] | (m & -> & _)]; [now apply Fj | lia].
  - split.
    + apply M; [now left|]. right. exists (i - (j + 8))%nat. split; [lia|].
      replace (j + 8 + (i - (j + 8)))%nat with i by lia. apply Fi.
    + intros k Hk. apply M in Hk; [|now left].
      destruct Hk as [[L O] | (m & -> & O)].
      * apply Fi in O. rewrite length_start_tag in L. lia.
      * apply Fi in O. lia.
  - pose proof (new_content_length content (first_found _ _ _ Fi Fj)) as HL.
    unfold start_index, end_index in HL.
    rewrite (find_first _ _ _ Fi), (find_first _ _ _ Fj) in HL.
    unfold len in HL. rewrite length_link_tag, length_end_tag in HL.
    pose proof (occurs_at_length _ _ _ (proj1 Fi)) as Li. lia.
Qed.

Lemma reversed_stays_reversed_witness :
  first_at start_tag (lit "a</style>bc<style>d") 11 /\
  first_at end_tag (lit "a</style>bc<style>d") 1 /\
  (1 + 8 <= 11)%nat /\
  first_at end_tag (new_content (lit "a</style>bc<style>d")) 1 /\
  first_at start_tag (new_content (lit "a</style>bc<style>d")) (11 + 45 + (11 - (1 + 8))) /\
  length (new_content (lit "a</style>bc<style>d")) =
    (length (lit "a</style>bc<style>d") + 45 + (11 - (1 + 8)))%nat.
Proof.
  assert (Fs : first_at start_tag (lit "a</style>bc<style>d") 11)
    by (apply find_first_inv; reflexivity).
  assert (Fe : first_at end_tag (lit "a</style>bc<style>d") 1)
    by (apply find_first_inv; reflexivity).
  assert (L : (1 + 8 <= 11)%nat) by lia.
  split; [exact Fs|]. split; [exact Fe|]. split; [exact L|].
  exact (reversed_stays_reversed _ 11%nat 1%nat Fs Fe L).
Defined.

(** After any number of runs on such a text the file is in the same
    situation, every run so far has written and printed the success line,
    and each has added at least 45 characters. *)
Lemma reversed_runs (content : str) (n : nat) :
  (exists i j, first_at start_tag content i /\ first_at end_tag content j /\
               (j + 8 <= i)%nat) ->
  (exists i j, first_at start_tag (file_text (Nat.iter n run (initial content))) i /\
               first_at end_tag (file_text (Nat.iter n run (initial content))) j /\
               (j + 8 <= i)%nat) /\
  prints (events (Nat.iter n run (initial content))) = repeat msg_success n /\
  length (writes (events (Nat.iter n run (initial content)))) = n /\
  (length content + 45 * n <= length (file_text (Nat.iter n run (initial content))))%nat.
Proof.
  intros H0. induction n as [|n IH].
  - simpl. split; [exact H0|]. split; [reflexivity|]. split; [reflexivity | lia].
  - cbn [Nat.iter nat_rect]. fold (Nat.iter n run (initial content)).
    destruct IH as ((i & j & Fi & Fj & Hji) & Hp & Hw & Hl).
    rewrite run_found by exact (first_found _ _ _ Fi Fj).
    cbn [file_text events].
    destruct (reversed_stays_reversed _ i j Fi Fj Hji) as (Fj' & Fi' & Hlen).
    split; [|split; [|split]].
    + exists (i + 45 + (i - (j + 8)))%nat, j. split; [exact Fi'|]. split; [exact Fj' | lia].
    + rewrite prints_app, Hp. simpl. now rewrite <- repeat_cons.
    + rewrite writes_app, length_app, Hw. simpl. lia.
    + rewrite Hlen. lia.
Qed.

(** X4.  When the first ["</style>"] ends at or before the first
    ["<style>"], repeated runs never reach the not-found state: each of the
    first [n] runs writes the file and prints the success line, and the
    file grows by at least 45 characters per run. *)
Theorem reversed_never_settles (content : str) (i j n : nat) :
  first_at start_tag content i -> first_at end_tag content j ->
  (j + 8 <= i)%nat ->
  prints (events (Nat.iter n run (initial content))) = repeat msg_success n /\
  length (writes (events (Nat.iter n run (initial content)))) = n /\
  (length content + 45 * n <= length (file_text (Nat.iter n run (initial content))))%nat.
Proof.
  intros Fi Fj Hji. apply reversed_runs. now exists i, j.
Qed.

Lemma reversed_never_settles_witness :
  first_at start_tag (lit "</style><style>") 8 /\
  first_at end_tag (lit "</style><style>") 0 /\
  (0 + 8 <= 8)%nat /\
  prints (events (Nat.iter 3 run (initial (lit "</style><style>")))) = repeat msg_success 3 /\
  length (writes (events (Nat.iter 3 run (initial (lit "</style><style>"))))) = 3%nat /\
  (length (lit "</style><style>") + 45 * 3 <=
   length (file_text (Nat.iter 3 run (initial (lit "</style><style>")))))%nat.
Proof.
  assert (Fs : first_at start_tag (lit "</style><style>") 8)
    by (apply find_first_inv; reflexivity).
  assert (Fe : first_at end_tag (lit "</style><style>") 0)
    by (apply find_first_inv; reflexivity).
  assert (L : (0 + 8 <= 8)%nat) by lia.
  split; [exact Fs|]. split; [exact Fe|]. split; [exact L|].
  exact (reversed_never_settles _ 8%nat 0%nat 3%nat Fs Fe L).
Defined.

(** Runs on a text [pre ++ blocks bs], from any world that holds it. *)
Lemma runs_on_blocks (bs : list (str * str)) :
  forall (pre : str) (w : world),
    file_text w = pre ++ blocks bs ->
    ~ occurs start_tag pre -> ~ occurs end_tag pre ->
    Forall well_formed_block bs ->
    file_text (Nat.iter (length bs) run w) = pre ++ linked bs /\
    prints (events (Nat.iter (length bs) run w)) =
      prints (events w) ++ repeat msg_success (length bs) /\
    length (writes (events (Nat.iter (length bs) run w))) =
      (length (writes (events w)) + length bs)%nat /\
    found (file_text (Nat.iter (length bs) run w)) = false.
Proof.
  induction bs as [|[body gap] bs IH]; intros pre w Hw Hps Hpe Hbs.
  - simpl in *. rewrite !app_nil_r in *. rewrite Hw.
    split; [reflexivity|]. split; [reflexivity|]. split; [lia|].
    destruct (found pre) eqn:E; [|reflexivity]. apply found_iff in E. tauto.
  - inversion Hbs as [|? ? (Hbe & Hgs & Hge) Hbs']; subst. cbn [fst snd] in *.
    cbn [length]. rewrite Nat.iter_succ_r.
    cbn [blocks] in Hw.
    pose proof (block_first_start pre body (gap ++ blocks bs) Hps) as Fs.
    pose proof (block_first_end pre body (gap ++ blocks bs) Hpe Hbe) as Fe.
    rewrite <- Hw in Fs, Fe.
    assert (Hrun : run w =
              mkWorld ((pre ++ link_tag ++ gap) ++ blocks bs)
                (events w ++ [Wrote ((pre ++ link_tag ++ gap) ++ blocks bs);
                              Printed msg_success])).
    { rewrite run_found by exact (first_found _ _ _ Fs Fe).
      rewrite (new_content_split (file_text w) pre (body ++ end_tag ++ gap ++ blocks bs)
                 (pre ++ start_tag ++ body) (gap ++ blocks bs));
        try assumption; [|now rewrite Hw, <- !app_assoc].
      now rewrite <- !app_assoc. }
    destruct (IH (pre ++ link_tag ++ gap) (run w)) as (Hf & Hp & Hwr & Hnf).
    + now rewrite Hrun.
    + apply patched_free; auto using start_tag_head. intros k. apply start_tag_after_link.
    + apply patched_free; auto using end_tag_head. intros k. apply end_tag_after_link.
    + exact Hbs'.
    + split; [|split; [|split]].
      * rewrite Hf. cbn [linked]. now rewrite <- !app_assoc.
      * rewrite Hp, Hrun. cbn [events]. rewrite prints_app, <- app_assoc. reflexivity.
      * rewrite Hwr, Hrun. cbn [events]. rewrite writes_app, length_app. simpl. lia.
      * exact Hnf.
Qed.

(** X5.  On a text made of a marker-free prefix followed by [n] well-formed
    style blocks (no ["</style>"] inside a body, no marker in the text
    after a block), [n] runs replace every block by the link tag and keep
    the rest; each of them writes the file and prints the success line, and
    the next run writes nothing and prints the not-found line. *)
Theorem each_run_patches_one_block (pre : str) (bs : list (str * str)) :
  ~ occurs start_tag pre -> ~ occurs end_tag pre ->
  Forall well_formed_block bs ->
  file_text (Nat.iter (length bs) run (initial (pre ++ blocks bs))) = pre ++ linked bs /\
  prints (events (Nat.iter (length bs) run (initial (pre ++ blocks bs)))) =
    repeat msg_success (length bs) /\
  length (writes (events (Nat.iter (length bs) run (initial (pre ++ blocks bs))))) =
    length bs /\
  run (Nat.iter (length bs) run (initial (pre ++ blocks bs))) =
    mkWorld (pre ++ linked bs)
      (events (Nat.iter (length bs) run (initial (pre ++ blocks bs))) ++
       [Printed msg_not_found]).
Proof.
  intros Hps Hpe Hbs.
  destruct (runs_on_blocks bs pre (initial (pre ++ blocks bs)) eq_refl Hps Hpe Hbs)
    as (Hf & Hp & Hw & Hnf).
  split; [exact Hf|]. split; [exact Hp|]. split; [exact Hw|].
  rewrite run_not_found by exact Hnf. now rewrite Hf.
Qed.

Lemma each_run_patches_one_block_witness :
  ~ occurs start_tag (lit "<head>") /\ ~ occurs end_tag (lit "<head>") /\
  Forall well_formed_block
    [(lit "a{}<style>", lit "<meta>"); (lit "b{}", lit "</head>")] /\
  file_text
    (Nat.iter (length [(lit "a{}<style>", lit "<meta>"); (lit "b{}", lit "</head>")]) run
       (initial (lit "<head>" ++
                 blocks [(lit "a{}<style>", lit "<meta>"); (lit "b{}", lit "</head>")]))) =
    lit "<head>" ++ linked [(lit "a{}<style>", lit "<meta>"); (lit "b{}", lit "</head>")] /\
  prints (events
    (Nat.iter (length [(lit "a{}<style>", lit "<meta>"); (lit "b{}", lit "</head>")]) run
       (initial (lit "<head>" ++
                 blocks [(lit "a{}<style>", lit "<meta>"); (lit "b{}", lit "</head>")])))) =
    repeat msg_success (length [(lit "a{}<style>", lit "<meta>"); (lit "b{}", lit "</head>")]) /\
  length (writes (events
    (Nat.iter (length [(lit "a{}<style>", lit "<meta>"); (lit "b{}", lit "</head>")]) run
       (initial (lit "<head>" ++
                 blocks [(lit "a{}<style>", lit "<meta>"); (lit "b{}", lit "</head>")]))))) =
    length [(lit "a{}<style>", lit "<meta>"); (lit "b{}", lit "</head>")] /\
  run
    (Nat.iter (length [(lit "a{}<style>", lit "<meta>"); (lit "b{}", lit "</head>")]) run
       (initial (lit "<head>" ++
                 blocks [(lit "a{}<style>", lit "<meta>"); (lit "b{}", lit "</head>")]))) =
    mkWorld
      (lit "<head>" ++ linked [(lit "a{}<style>", lit "<meta>"); (lit "b{}", lit "</head>")])
      (events
         (Nat.iter (length [(lit "a{}<style>", lit "<meta>"); (lit "b{}", lit "</head>")]) run
            (initial (lit "<head>" ++
                      blocks [(lit "a{}<style>", lit "<meta>"); (lit "b{}", lit "</head>")]))) ++
       [Printed msg_not_found]).
Proof.
  assert (H1 : ~ occurs start_tag (lit "<head>")) by (apply find_none_inv; reflexivity).
  assert (H2 : ~ occurs end_tag (lit "<head>")) by (apply find_none_inv; reflexivity).
  assert (H3 : Forall well_formed_block
                 [(lit "a{}<style>", lit "<meta>"); (lit "b{}", lit "</head>")]).
  { repeat constructor; apply find_none_inv; reflexivity. }
  split; [exact H1|]. split; [exact H2|]. split; [exact H3|].
  exact (each_run_patches_one_block _ _ H1 H2 H3).
Defined.

(** X6.  Once a marker is missing, the file stays as it is: any number of
    further runs write nothing and print the not-found line each time. *)
Theorem not_found_is_final (w : world) (n : nat) :
  found (file_text w) = false ->
  Nat.iter n run w =
    mkWorld (file_text w) (events w ++ repeat (Printed msg_not_found) n).
Proof.
  intros Hf. induction n as [|n IH].
  - simpl. rewrite app_nil_r. now destruct w.
  - cbn [Nat.iter nat_rect]. fold (Nat.iter n run w). rewrite IH.
    rewrite run_not_found by exact Hf. cbn [file_text events].
    rewrite <- app_assoc. f_equal. f_equal. symmetry. apply repeat_cons.
Qed.

Lemma not_found_is_final_witness :
  found (file_text (initial (lit "<p>plain</p>"))) = false /\
  Nat.iter 4 run (initial (lit "<p>plain</p>")) =
    mkWorld (file_text (initial (lit "<p>plain</p>")))
      (events (initial (lit "<p>plain</p>")) ++ repeat (Printed msg_not_found) 4).
Proof.
  assert (H : found (file_text (initial (lit "<p>plain</p>"))) = false) by reflexivity.
  split; [exact H|].
  exact (not_found_is_final _ 4%nat H).
Defined.

(** X7.  A successful run always changes the file: the written text has
    the link tag at the index where the original had its first
    ["<style>"], so the two texts differ. *)
Theorem success_changes_file (content : str) :
  found content = true ->
  occurs_at link_tag (new_content content) (Z.to_nat (start_index content)) /\
  new_content content <> content.
Proof.
  intros Hf.
  destruct (found_first _ Hf) as (i & j & Ei & Ej & Fi & Fj).
  destruct (proj1 Fi) as (pre1 & post1 & E1 & L1).
  destruct (proj1 Fj) as (pre2 & post2 & E2 & L2).
  rewrite (new_content_split content pre1 post1 pre2 post2) by (subst i j; assumption).
  rewrite Ei, Nat2Z.id.
  assert (O : occurs_at link_tag (pre1 ++ link_tag ++ post2) i) by now exists pre1, post2.
  split; [exact O|].
  intros Heq. rewrite Heq in O.
  pose proof (occurs_at_nth _ _ _ 1 O ltac:(rewrite length_link_tag; lia)) as N1.
  pose proof (occurs_at_nth _ _ _ 1 (proj1 Fi) ltac:(rewrite length_start_tag; lia)) as N2.
  rewrite N2 in N1. discriminate.
Qed.

Lemma success_changes_file_witness :
  found (lit "<style></style>") = true /\
  occurs_at link_tag (new_content (lit "<style></style>"))
    (Z.to_nat (start_index (lit "<style></style>"))) /\
  new_content (lit "<style></style>") <> lit "<style></style>".
Proof.
  assert (H : found (lit "<style></style>") = true) by reflexivity.
  split; [exact H|].
  exact (success_changes_file _ H).
Defined.
